(** * nothrow: errors as values

    A shallow embedding of [src/index.ts] (package [@redchili/nothrow]) and the
    properties of its six exported functions [ok], [err], [isErr], [isOk],
    [safe] and [safeAsync].

    The library is untyped at run time: a [Result<T, E>] is any JavaScript
    value.  The first module therefore fixes the fragment of JavaScript the
    six functions touch: values, ordinary objects with data properties and a
    prototype chain, [typeof], [in], member access, object spread, and
    completions (normal return or [throw]).  The second module is the
    library, function by function; the third is the script that calls it,
    [safeJsonParse] and [init], over the host's [JSON.parse] and console.

    Scope of the value model.  Objects are ordinary objects whose properties
    are data properties keyed by strings; accessor properties, proxies and
    symbol keys are not represented.  A callable handed to the library is
    represented by what its one call does, a value returned or a value
    thrown; the call is taken to end.  A function held inside a value is
    only known to be callable: a promise resolved with a thenable is
    recorded as following it, and what the thenable then does with the
    promise is left open. *)

From Stdlib Require Import String List Bool ZArith.
From Stdlib Require Import Floats.PrimFloat.
From ExtLib Require Import Structures.Monad Structures.MonadExc.
Import ListNotations.
Import MonadNotation.

Local Open Scope string_scope.
Local Open Scope monad_scope.

#[local] Set Warnings "-register-all".

(* ===================================================================== *)
(** ** The JavaScript fragment *)
(* ===================================================================== *)

Module JS.

(** A data property: its value and its [[Enumerable]] attribute. *)
Record property (V : Type) : Type := mkProp
  { p_value : V;
    p_enumerable : bool }.

Arguments mkProp {V} p_value p_enumerable.
Arguments p_value {V} p.
Arguments p_enumerable {V} p.

(** Language values.  A number is an IEEE-754 double, a string a sequence of
    characters.  An object carries whether it has a [[Call]] slot, its
    [[Prototype]] ([None] for [null]) and its own properties in creation
    order. *)
Inductive value : Type :=
| VUndefined
| VNull
| VBool (b : bool)
| VNumber (n : float)
| VBigInt (z : Z)
| VString (s : string)
| VSymbol (description : string)
| VObject (o : object)
with object : Type :=
| Obj (callable : bool)
      (proto : option object)
      (props : list (string * property value)).

Definition obj_callable (o : object) : bool :=
  match o with Obj c _ _ => c end.

Definition obj_proto (o : object) : option object :=
  match o with Obj _ p _ => p end.

Definition obj_props (o : object) : list (string * property value) :=
  match o with Obj _ _ ps => ps end.

(** The outcome of evaluating an expression or calling a function: a value,
    or a thrown value. *)
Inductive completion (A : Type) : Type :=
| Normal (a : A)
| Throw (e : value).

Arguments Normal {A} a.
Arguments Throw {A} e.

#[export] Instance Monad_completion : Monad completion :=
  {| ret := fun _ a => Normal a;
     bind := fun _ _ c k =>
               match c with
               | Normal a => k a
               | Throw e => Throw e
               end |}.

(** [raise] is [throw]; [catch c h] is [try { c } catch (e) { h e }]. *)
#[export] Instance Exception_completion : MonadExc value completion :=
  {| raise := fun _ e => Throw e;
     catch := fun _ c h =>
                match c with
                | Normal a => Normal a
                | Throw e => h e
                end |}.

(** [a && b] on booleans, with [b] evaluated only when [a] is true. *)
Definition and_then (a b : completion bool) : completion bool :=
  x <- a ;; if x : bool then b else ret false.

Infix "&&&" := and_then (at level 40, left associativity).

(** *** Own properties *)

(** [[GetOwnProperty]] on a property list: the first entry under the key. *)
Fixpoint own_property (k : string) (ps : list (string * property value))
  : option (property value) :=
  match ps with
  | [] => None
  | (k', p) :: ps' => if String.eqb k k' then Some p else own_property k ps'
  end.

(** CreateDataProperty: an existing key keeps its place and takes the new
    value; a new key goes last.  The property is enumerable either way. *)
Fixpoint create_data_property (k : string) (v : value)
         (ps : list (string * property value))
  : list (string * property value) :=
  match ps with
  | [] => [(k, mkProp v true)]
  | (k', p) :: ps' =>
      if String.eqb k k'
      then (k, mkProp v true) :: ps'
      else (k', p) :: create_data_property k v ps'
  end.

(** One step of CopyDataProperties: the key [k] of [source] is copied when
    it names an enumerable own property. *)
Definition copy_key (source : list (string * property value))
           (target : list (string * property value)) (k : string)
  : list (string * property value) :=
  match own_property k source with
  | Some p =>
      if p_enumerable p
      then create_data_property k (p_value p) target
      else target
  | None => target
  end.

(** CopyDataProperties, what [...source] does inside an object literal:
    every own enumerable property of [source], in key order, is written to
    the object under construction. *)
Definition copy_data_properties (target : list (string * property value))
           (source : object) : list (string * property value) :=
  fold_left (copy_key (obj_props source))
            (map fst (obj_props source)) target.

(** A field of a record: the value of an own enumerable property. *)
Definition enumerable_value (ps : list (string * property value))
           (k : string) : option value :=
  match own_property k ps with
  | Some p => if p_enumerable p then Some (p_value p) else None
  | None => None
  end.

Definition field_of (o : object) (k : string) : option value :=
  enumerable_value (obj_props o) k.

(** A property list all of whose properties are enumerable, as an object
    literal builds it. *)
Definition all_enumerable (ps : list (string * property value)) : Prop :=
  forall k p, own_property k ps = Some p -> p_enumerable p = true.

Definition field (v : value) (k : string) : option value :=
  match v with
  | VObject o => field_of o k
  | _ => None
  end.

(** *** The prototype chain *)

(** [[HasProperty]]: own, or found along the prototype chain. *)
Fixpoint has_property (o : object) (k : string) : bool :=
  match o with
  | Obj _ proto ps =>
      match own_property k ps with
      | Some _ => true
      | None =>
          match proto with
          | Some parent => has_property parent k
          | None => false
          end
      end
  end.

(** [[Get]]: the value of the first property under [k] along the chain,
    [undefined] when there is none. *)
Fixpoint get (o : object) (k : string) : value :=
  match o with
  | Obj _ proto ps =>
      match own_property k ps with
      | Some p => p_value p
      | None =>
          match proto with
          | Some parent => get parent k
          | None => VUndefined
          end
      end
  end.

(** What it is for an object to contain the field [k]: the value found
    under [k], own or inherited, [None] when no object of the chain has
    the key. *)
Fixpoint contains_field (o : object) (k : string) : option value :=
  match o with
  | Obj _ proto ps =>
      match own_property k ps with
      | Some p => Some (p_value p)
      | None =>
          match proto with
          | Some parent => contains_field parent k
          | None => None
          end
      end
  end.

(** *** Built-in objects *)

(** [Object.prototype], and the prototypes of errors.  Their built-in
    methods are left out; the properties the library can reach,
    [Error.prototype.message] and [name], are there. *)
Definition Object_prototype : object := Obj false None [].

Definition Error_prototype : object :=
  Obj false (Some Object_prototype)
      [("name", mkProp (VString "Error") false);
       ("message", mkProp (VString EmptyString) false)].

Definition TypeError_prototype : object :=
  Obj false (Some Error_prototype)
      [("name", mkProp (VString "TypeError") false);
       ("message", mkProp (VString EmptyString) false)].

(** [{ k1: v1, ..., kn: vn }]. *)
Definition object_literal (fields : list (string * value)) : object :=
  Obj false (Some Object_prototype)
      (fold_left (fun ps kv => create_data_property (fst kv) (snd kv) ps)
                 fields []).

(** [new Error(message)] evaluated where the runtime's stack trace reads
    [trace]: a non-enumerable [stack] that reads back as the trace, and an
    own non-enumerable [message] when a message is given. *)
Definition new_Error (message : option string) (trace : string) : object :=
  Obj false (Some Error_prototype)
      (("stack", mkProp (VString trace) false)
         :: match message with
            | Some m => [("message", mkProp (VString m) false)]
            | None => []
            end).

(** The [TypeError] the runtime throws by itself.  The wording of the
    message differs between engines, and the error's [stack] is left out. *)
Definition TypeError (message : string) : value :=
  VObject (Obj false (Some TypeError_prototype)
               [("message", mkProp (VString message) false)]).

(** *** Operators *)

(** [typeof v]. *)
Definition typeof (v : value) : string :=
  match v with
  | VUndefined => "undefined"
  | VNull => "object"
  | VBool _ => "boolean"
  | VNumber _ => "number"
  | VBigInt _ => "bigint"
  | VString _ => "string"
  | VSymbol _ => "symbol"
  | VObject o => if obj_callable o then "function" else "object"
  end.

(** [v === null] and [v === b] for a boolean literal [b]: strict equality
    with a primitive holds for that primitive only. *)
Definition strict_equals_null (v : value) : bool :=
  match v with
  | VNull => true
  | _ => false
  end.

Definition strict_equals_bool (v : value) (b : bool) : bool :=
  match v with
  | VBool b' => Bool.eqb b' b
  | _ => false
  end.

(** [k in v]: a [TypeError] unless [v] is an object. *)
Definition in_operator (k : string) (v : value) : completion bool :=
  match v with
  | VObject o => ret (has_property o k)
  | _ => raise (TypeError ("Cannot use 'in' operator to search for '"
                             ++ k ++ "' in a value that is not an object"))
  end.

(** [v.k]: a [TypeError] when [v] is [undefined] or [null].  On a primitive
    the lookup goes to the prototype of its wrapper, whose built-in
    properties are not represented: the answer [undefined] is exact for the
    keys the library reads, [ok] and [message]. *)
Definition get_member (v : value) (k : string) : completion value :=
  match v with
  | VUndefined =>
      raise (TypeError ("Cannot read properties of undefined (reading '"
                          ++ k ++ "')"))
  | VNull =>
      raise (TypeError ("Cannot read properties of null (reading '"
                          ++ k ++ "')"))
  | VObject o => ret (get o k)
  | _ => ret VUndefined
  end.

(** *** Promises *)

(** A promise that is awaited, by how it settles.  One that never settles
    leaves whoever awaits it suspended for good and is not represented. *)
Inductive promise : Type :=
| Fulfilled (v : value)
| Rejected (reason : value).

(** [await p]: the fulfilment value, or the rejection reason thrown at the
    point of the [await]. *)
Definition await (p : promise) : completion value :=
  match p with
  | Fulfilled v => ret v
  | Rejected e => raise e
  end.

(** A thenable: an object whose [then], read along the prototype chain, is
    callable. *)
Definition is_thenable (v : value) : bool :=
  match v with
  | VObject o =>
      match get o "then" with
      | VObject f => obj_callable f
      | _ => false
      end
  | _ => false
  end.

(** What becomes of a promise that is resolved with a value or rejected:
    it is settled, or it is locked in to follow a thenable, whose [then]
    is called with the promise's resolving functions and decides from
    then on whether the promise is fulfilled, rejected or left pending.
    What a function inside a value does is not part of the value, so the
    outcome of following is not determined here. *)
Inductive resolution : Type :=
| Settled (p : promise)
| Follows (thenable : value).

Coercion Settled : promise >-> resolution.

(** The promise an [async] function returns, from the completion of its
    body: [return v] resolves it with [v], which fulfils it unless [v] is
    a thenable, and an uncaught [throw e] rejects it with [e]. *)
Definition async (body : completion value) : resolution :=
  match body with
  | Normal v => if is_thenable v then Follows v else Fulfilled v
  | Throw e => Rejected e
  end.

End JS.

Import JS.

(* ===================================================================== *)
(** ** The library: [src/index.ts] *)
(* ===================================================================== *)

Module Nothrow.

Section Runtime.

(** The text the runtime gives [new Error().stack] where [err] evaluates
    it.  Its format belongs to the engine. *)
Variable trace : string.

(** [ok]: line 4.  The value comes back as it is. *)
Definition ok (v : value) : value := v.

(** [err]: line 15.
    [return { ok: false, ...reason, stack: new Error().stack! }]:
    the marker first, then the spread, then [stack]. *)
Definition err (reason : object) : value :=
  VObject
    (Obj false (Some Object_prototype)
         (create_data_property "stack" (get (new_Error None trace) "stack")
            (copy_data_properties
               (create_data_property "ok" (VBool false) [])
               reason))).

(** [isErr]: line 22.
    [typeof r === "object" && r !== null && "ok" in r && r.ok === false]. *)
Definition isErr (r : value) : completion bool :=
  ret (String.eqb (typeof r) "object")
  &&& ret (negb (strict_equals_null r))
  &&& in_operator "ok" r
  &&& (v <- get_member r "ok" ;; ret (strict_equals_bool v false)).

(** [isOk]: line 28.  [!isErr(r)]. *)
Definition isOk (r : value) : completion bool :=
  b <- isErr r ;; ret (negb b).

(** The default of the parameter [mapError], lines 43 and 61:
    [(e) => ({ reason: (e as Error).message } as E)]. *)
Definition default_mapError (e : value) : completion object :=
  m <- get_member e "message" ;; ret (object_literal [("reason", m)]).

(** A parameter with a default takes it when the argument is left out. *)
Definition or_default (mapError : option (value -> completion object))
  : value -> completion object :=
  match mapError with
  | Some f => f
  | None => default_mapError
  end.

(** [safe]: line 35.
    [try { return ok(fn()); } catch (e) { return err(mapError(e)); }]. *)
Definition safe (fn : unit -> completion value)
           (mapError : option (value -> completion object))
  : completion value :=
  catch (v <- fn tt ;; ret (ok v))
        (fun e => r <- or_default mapError e ;; ret (err r)).

(** [safeAsync]: line 53.
    [try { return ok(await fn()); } catch (e) { return err(mapError(e)); }]
    as the body of an [async] function.  Calling [fn] either throws or
    hands back a promise. *)
Definition safeAsync (fn : unit -> completion promise)
           (mapError : option (value -> completion object))
  : resolution :=
  async
    (catch (p <- fn tt ;; v <- await p ;; ret (ok v))
           (fun e => r <- or_default mapError e ;; ret (err r))).

End Runtime.

(** The classification of section 3 of the specification, in its words: a
    value is a failure when it is a non-null structured object (runtime
    type [object], so not a function) containing the marker field [ok] set
    to [false]; any other value is a success. *)
Definition spec_is_failure (v : value) : bool :=
  match v with
  | VObject o =>
      negb (obj_callable o)
      && match contains_field o "ok" with
         | Some (VBool false) => true
         | _ => false
         end
  | _ => false
  end.

(** The message an exception carries: its [message] property, [undefined]
    when it has none. *)
Definition message_of (e : value) : value :=
  match e with
  | VObject o => get o "message"
  | _ => VUndefined
  end.

End Nothrow.

Import Nothrow.

(* ===================================================================== *)
(** ** A caller: the script that parses JSON through [safe] *)
(* ===================================================================== *)

Module Demo.

(** [SyntaxError.prototype] and the error [JSON.parse] throws on a text
    that is not JSON; its [stack] is left out. *)
Definition SyntaxError_prototype : object :=
  Obj false (Some Error_prototype)
      [("name", mkProp (VString "SyntaxError") false);
       ("message", mkProp (VString EmptyString) false)].

Definition SyntaxError (message : string) : value :=
  VObject (Obj false (Some SyntaxError_prototype)
               [("message", mkProp (VString message) false)]).

(** One call of [console.error] or [console.log], with its arguments. *)
Inductive console_call : Type :=
| ConsoleError (args : list value)
| ConsoleLog (args : list value).

Section Host.

(** The host's [JSON.parse] on a string, and the trace [err] captures. *)
Variable JSON_parse : string -> completion value.
Variable trace : string.

(** [safeJsonParse]: [(d) => safe(() => JSON.parse(d))]. *)
Definition safeJsonParse (d : string) : completion value :=
  safe trace (fun _ => JSON_parse d) None.

(** The one console call [init] makes, its arguments evaluated first:
    [if (isErr(result)) { console.error("...", result.reason, result.stack);
    return; } console.log("...", result.b);]. *)
Definition init_call : completion console_call :=
  result <- safeJsonParse EmptyString ;;
  failed <- isErr result ;;
  if failed : bool
  then reason <- get_member result "reason" ;;
       stack <- get_member result "stack" ;;
       ret (ConsoleError [VString "失败:"; reason; stack])
  else b <- get_member result "b" ;;
       ret (ConsoleLog [VString "成功:"; b]).

(** [init], on the console as a list of the calls made so far: the call is
    appended, or an exception leaves the console as it was. *)
Definition init (console : list console_call)
  : list console_call * completion unit :=
  match init_call with
  | Normal call => ((console ++ [call])%list, Normal tt)
  | Throw e => (console, Throw e)
  end.

End Host.

End Demo.

Import Demo.

(* ===================================================================== *)
(** ** Sample values *)
(* ===================================================================== *)

Module Samples.

(** [{ reason: "r" }] and [{ reason: "X" }]. *)
Definition reason_r : object := object_literal [("reason", VString "r")].
Definition reason_X : object := object_literal [("reason", VString "X")].

(** [{ reason: "X", ok: true, stack: "mine" }]. *)
Definition reason_with_ok_and_stack : object :=
  object_literal [("reason", VString "X");
                  ("ok", VBool true);
                  ("stack", VString "mine")].

(** [{ reason: "X", detail: 7, stack: "mine" }]. *)
Definition reason_with_stack : object :=
  object_literal [("reason", VString "X");
                  ("detail", VNumber 7);
                  ("stack", VString "mine")].

(** [new Error("boom")], created where the trace reads as given. *)
Definition boom : value :=
  VObject (new_Error (Some "boom") "Error: boom at <anonymous>").

(** A trace as [err] captures it. *)
Definition sample_trace : string := "Error at err (index.ts:18:36)".

(** [[1, 2]]: index properties and a non-enumerable [length]. *)
Definition array_1_2 : value :=
  VObject (Obj false (Some (Obj false (Some Object_prototype) []))
               [("0", mkProp (VNumber 1) true);
                ("1", mkProp (VNumber 2) true);
                ("length", mkProp (VNumber 2) false)]).

(** [Object.assign(function () {}, { ok: false })]. *)
Definition function_with_marker : value :=
  VObject (Obj true (Some (Obj true (Some Object_prototype) []))
               [("ok", mkProp (VBool false) true)]).

(** [{ ok: false }] built by hand, and [Object.create({ ok: false })]. *)
Definition bare_marker : value :=
  VObject (object_literal [("ok", VBool false)]).

Definition inherited_marker : value :=
  VObject (Obj false (Some (object_literal [("ok", VBool false)])) []).

(** [() => 42], [() => { throw "raw" }], [() => { throw null }],
    [() => { throw new Error("boom") }]. *)
Definition returns_42 : unit -> completion value :=
  fun _ => ret (VNumber 42).

Definition throws_raw : unit -> completion value :=
  fun _ => raise (VString "raw").

Definition throws_null : unit -> completion value :=
  fun _ => raise VNull.

Definition throws_boom : unit -> completion value :=
  fun _ => raise boom.

(** [(e) => { throw e }] and, on strings, [(e) => ({ reason: String(e) })]. *)
Definition rethrow : value -> completion object :=
  fun e => raise e.

Definition reason_of_string : value -> completion object :=
  fun e =>
    match e with
    | VString s => ret (object_literal [("reason", VString s)])
    | _ => ret (object_literal [("reason", VString "not a string")])
    end.

(** [async () => 7], [async () => { throw new Error("boom") }],
    [() => Promise.reject(undefined)]. *)
Definition resolves_7 : unit -> completion promise :=
  fun _ => ret (Fulfilled (VNumber 7)).

Definition rejects_boom : unit -> completion promise :=
  fun _ => ret (Rejected boom).

Definition rejects_undefined : unit -> completion promise :=
  fun _ => ret (Rejected VUndefined).

(** [Object.create({ reason: "X" })]: the reason is inherited, not own. *)
Definition inherited_reason : object :=
  Obj false (Some (object_literal [("reason", VString "X")])) [].

(** An instance of [class E extends Error { reason = "R" }] created with
    the message ["boom"]: [reason] is an enumerable own property,
    [message] and [stack] are not enumerable. *)
Definition custom_error : object :=
  Obj false (Some (Obj false (Some Error_prototype) []))
      [("stack", mkProp (VString "Error: boom at new E") false);
       ("message", mkProp (VString "boom") false);
       ("reason", mkProp (VString "R") true)].

(** [() => ({ ok: false })]: a success that carries the marker. *)
Definition returns_bare_marker : unit -> completion value :=
  fun _ => ret bare_marker.

(** [function () {}], and [{ reason: "r", then: function () {} }]. *)
Definition a_function : value :=
  VObject (Obj true (Some (Obj true (Some Object_prototype) [])) []).

Definition thenable_reason : object :=
  object_literal [("reason", VString "r"); ("then", a_function)].

(** [(e) => ({ reason: "r", then: function () {} })]. *)
Definition answers_thenable : value -> completion object :=
  fun _ => ret thenable_reason.

(** A second trace, for a second call of [err]. *)
Definition other_trace : string := "Error at err (index.ts:18:36) at retry".

(** The JSON texts [null] and [{"ok":false}]. *)
Definition text_null : string := "null".

Definition text_marker : string :=
  let q := String (Ascii.ascii_of_nat 34) EmptyString in
  "{" ++ q ++ "ok" ++ q ++ ":false}".

(** A stand-in for the host's [JSON.parse] that knows two texts and
    rejects every other one, the empty text among them. *)
Definition sample_JSON_parse (d : string) : completion value :=
  if String.eqb d text_null then ret VNull
  else if String.eqb d text_marker then ret bare_marker
  else raise (SyntaxError "Unexpected end of JSON input").

End Samples.

Import Samples.

(* ===================================================================== *)
(** ** Properties of the fragment *)
(* ===================================================================== *)

Section PropertyLists.

Implicit Types (k : string) (v : value) (ps : list (string * property value)).

Lemma own_property_create k k' v ps :
  own_property k (create_data_property k' v ps)
  = if String.eqb k k' then Some (mkProp v true) else own_property k ps.
Proof.
  induction ps as [|[k0 p0] ps IH]; simpl.
  - destruct (String.eqb k k'); reflexivity.
  - destruct (String.eqb k' k0) eqn:E0; simpl.
    + apply String.eqb_eq in E0; subst k0.
      destruct (String.eqb k k'); reflexivity.
    + destruct (String.eqb k k0) eqn:E1.
      * apply String.eqb_eq in E1; subst k0.
        rewrite String.eqb_sym, E0. reflexivity.
      * exact IH.
Qed.

Lemma enumerable_value_create k k' v ps :
  enumerable_value (create_data_property k' v ps) k
  = if String.eqb k k' then Some v else enumerable_value ps k.
Proof.
  unfold enumerable_value. rewrite own_property_create.
  destruct (String.eqb k k'); reflexivity.
Qed.

Lemma enumerable_value_copy_key source target k0 k :
  enumerable_value (copy_key source target k0) k
  = if String.eqb k k0
    then match enumerable_value source k with
         | Some v => Some v
         | None => enumerable_value target k
         end
    else enumerable_value target k.
Proof.
  unfold copy_key.
  destruct (String.eqb k k0) eqn:E.
  - apply String.eqb_eq in E; subst k0.
    unfold enumerable_value at 2.
    destruct (own_property k source) as [p|]; [|reflexivity].
    destruct (p_enumerable p); [|reflexivity].
    rewrite enumerable_value_create, String.eqb_refl. reflexivity.
  - destruct (own_property k0 source) as [p|]; [|reflexivity].
    destruct (p_enumerable p); [|reflexivity].
    rewrite enumerable_value_create, E. reflexivity.
Qed.

Lemma enumerable_value_fold source keys : forall target k,
  enumerable_value (fold_left (copy_key source) keys target) k
  = if existsb (String.eqb k) keys
    then match enumerable_value source k with
         | Some v => Some v
         | None => enumerable_value target k
         end
    else enumerable_value target k.
Proof.
  induction keys as [|k0 keys IH]; intros target k; simpl; [reflexivity|].
  rewrite IH, enumerable_value_copy_key.
  destruct (String.eqb k k0); simpl.
  - destruct (existsb (String.eqb k) keys);
      destruct (enumerable_value source k); reflexivity.
  - reflexivity.
Qed.

Lemma own_property_key k ps p :
  own_property k ps = Some p -> existsb (String.eqb k) (map fst ps) = true.
Proof.
  induction ps as [|[k0 p0] ps IH]; simpl; [discriminate|].
  destruct (String.eqb k k0); [reflexivity|exact IH].
Qed.

(** What a spread leaves under each key: the field of the source when it
    has one, what was there before otherwise. *)
Lemma enumerable_value_spread target source k :
  enumerable_value (copy_data_properties target source) k
  = match field_of source k with
    | Some v => Some v
    | None => enumerable_value target k
    end.
Proof.
  unfold copy_data_properties, field_of.
  rewrite enumerable_value_fold.
  destruct (existsb (String.eqb k) (map fst (obj_props source))) eqn:E;
    [reflexivity|].
  destruct (enumerable_value (obj_props source) k) eqn:Ev; [|reflexivity].
  unfold enumerable_value in Ev.
  destruct (own_property k (obj_props source)) as [p|] eqn:Ep; [|discriminate].
  apply own_property_key in Ep. congruence.
Qed.

Lemma all_enumerable_create k v ps :
  all_enumerable ps -> all_enumerable (create_data_property k v ps).
Proof.
  intros H k' p. rewrite own_property_create.
  destruct (String.eqb k' k); [intros [= <-]; reflexivity|apply H].
Qed.

Lemma all_enumerable_spread target source :
  all_enumerable target ->
  all_enumerable (copy_data_properties target source).
Proof.
  unfold copy_data_properties.
  generalize (map fst (obj_props source)) as keys.
  intros keys; revert target.
  induction keys as [|k0 keys IH]; intros target H; simpl; [exact H|].
  apply IH. unfold copy_key.
  destruct (own_property k0 (obj_props source)) as [q|]; [|exact H].
  destruct (p_enumerable q); [|exact H].
  apply all_enumerable_create, H.
Qed.

Lemma own_property_all_enumerable ps :
  all_enumerable ps ->
  forall k, option_map p_value (own_property k ps) = enumerable_value ps k.
Proof.
  intros H k. unfold enumerable_value.
  destruct (own_property k ps) as [p|] eqn:E; [|reflexivity].
  rewrite (H k p E). reflexivity.
Qed.

End PropertyLists.

(** [in] followed by a read finds what the object contains. *)
Lemma contains_field_has_get (k : string) : forall o : object,
  contains_field o k
  = if has_property o k then Some (get o k) else None.
Proof.
  fix IH 1. intros [c proto ps]. simpl.
  destruct (own_property k ps) as [p|]; [reflexivity|].
  destruct proto as [parent|]; [apply IH|reflexivity].
Qed.

(* ===================================================================== *)
(** ** Properties of the library *)
(* ===================================================================== *)

(** *** Constructors *)

(** The fields of a record built by [err], key by key: the fresh trace
    under [stack]; elsewhere the field of [reason] when it has one; the
    marker under [ok] when [reason] has no such field; nothing else. *)
Lemma field_err (trace : string) (reason : object) (k : string) :
  field (err trace reason) k
  = if String.eqb k "stack" then Some (VString trace)
    else match field_of reason k with
         | Some v => Some v
         | None => if String.eqb k "ok" then Some (VBool false) else None
         end.
Proof.
  unfold err, field, field_of at 1. cbn [obj_props].
  rewrite enumerable_value_create.
  destruct (String.eqb k "stack"); [reflexivity|].
  rewrite enumerable_value_spread, enumerable_value_create.
  reflexivity.
Qed.

Lemma err_is_object (trace : string) (reason : object) :
  exists o, err trace reason = VObject o
            /\ obj_callable o = false
            /\ obj_proto o = Some Object_prototype.
Proof. unfold err. eexists. repeat split. Qed.

(** A record built by [err] has enumerable properties only. *)
Lemma err_all_enumerable (trace : string) (reason : object) :
  forall o, err trace reason = VObject o -> all_enumerable (obj_props o).
Proof.
  intros o E. unfold err in E. injection E as <-. cbn [obj_props].
  apply all_enumerable_create, all_enumerable_spread.
  apply (all_enumerable_create "ok" (VBool false) []).
  intros k p. discriminate.
Qed.

(** What [in] and a read see of a record built by [err]: its fields, the
    prototype adding none. *)
Lemma contains_field_err (trace : string) (reason : object) (k : string) :
  forall o, err trace reason = VObject o ->
  contains_field o k = field (err trace reason) k.
Proof.
  intros o E. pose proof (err_all_enumerable trace reason o E) as Hall.
  rewrite E. unfold field, field_of.
  rewrite <- (own_property_all_enumerable _ Hall k).
  unfold err in E. injection E as <-. cbn [obj_props contains_field].
  destruct (own_property k _); reflexivity.
Qed.

(** *** Predicates *)

(** The classification of the specification, spelled out. *)
Lemma spec_is_failure_iff (v : value) :
  spec_is_failure v = true
  <-> exists o, v = VObject o
                /\ obj_callable o = false
                /\ contains_field o "ok" = Some (VBool false).
Proof.
  split.
  - destruct v as [ | | b | n | z | s | d | o]; try discriminate.
    unfold spec_is_failure. intros H.
    apply andb_true_iff in H as [Hc Hm]. exists o.
    split; [reflexivity|]. split; [apply negb_true_iff, Hc|].
    destruct (contains_field o "ok") as [[ | | [|] | | | | | ]|];
      try discriminate. reflexivity.
  - intros (o & -> & Hc & Hm). unfold spec_is_failure.
    rewrite Hc, Hm. reflexivity.
Qed.

(** [isErr] never throws, and answers as the specification classifies. *)
Lemma isErr_spec (v : value) : isErr v = Normal (spec_is_failure v).
Proof.
  destruct v as [ | | b | n | z | s | d | [c proto ps]]; try reflexivity.
  destruct c; [reflexivity|].
  unfold spec_is_failure. rewrite contains_field_has_get.
  unfold isErr, and_then, in_operator, get_member.
  cbn [typeof obj_callable String.eqb Ascii.eqb Bool.eqb bind ret
       Monad_completion strict_equals_null negb andb].
  destruct (has_property (Obj false proto ps) "ok"); [|reflexivity].
  destruct (get (Obj false proto ps) "ok") as [ | | [|] | | | | | ];
    reflexivity.
Qed.

Lemma isOk_spec (v : value) : isOk v = Normal (negb (spec_is_failure v)).
Proof. unfold isOk. rewrite isErr_spec. reflexivity. Qed.

Lemma typeof_failure (v : value) :
  spec_is_failure v = true -> typeof v = "object".
Proof.
  destruct v as [ | | b | n | z | s | d | [c proto ps]]; try discriminate.
  destruct c; [discriminate|reflexivity].
Qed.

(** On a record built by [err], [isErr] answers by the field [ok]. *)
Lemma isErr_err (trace : string) (reason : object) :
  isErr (err trace reason)
  = Normal match field (err trace reason) "ok" with
           | Some (VBool false) => true
           | _ => false
           end.
Proof.
  rewrite isErr_spec.
  destruct (err_is_object trace reason) as (o & E & Hc & _).
  rewrite <- (contains_field_err trace reason "ok" o E).
  rewrite E. unfold spec_is_failure. rewrite Hc. reflexivity.
Qed.

(** *** Wrappers *)

Lemma safe_normal trace fn mapError v :
  fn tt = Normal v -> safe trace fn mapError = Normal (ok v).
Proof. intros E. unfold safe. rewrite E. reflexivity. Qed.

Lemma safe_throw trace fn mapError e :
  fn tt = Throw e ->
  safe trace fn mapError = (r <- or_default mapError e ;; ret (err trace r)).
Proof. intros E. unfold safe. rewrite E. reflexivity. Qed.

(** The value [safeAsync] has in hand in its [catch] block: what calling
    [fn] threw, or what the promise it returned was rejected with. *)
Lemma safeAsync_fulfilled trace fn mapError v :
  fn tt = Normal (Fulfilled v) ->
  safeAsync trace fn mapError = async (Normal (ok v)).
Proof. intros E. unfold safeAsync. rewrite E. reflexivity. Qed.

Lemma safeAsync_caught trace fn mapError e :
  fn tt = Throw e \/ fn tt = Normal (Rejected e) ->
  safeAsync trace fn mapError
  = async (r <- or_default mapError e ;; ret (err trace r)).
Proof. intros [E|E]; unfold safeAsync; rewrite E; reflexivity. Qed.

(** *** Thenables *)

(** A record built by [err] is a thenable exactly when [reason] has a
    field [then] that holds a function. *)
Lemma is_thenable_err (trace : string) (reason : object) :
  is_thenable (err trace reason)
  = match field_of reason "then" with
    | Some (VObject f) => obj_callable f
    | _ => false
    end.
Proof.
  destruct (err_is_object trace reason) as (o & E & _ & Hproto).
  pose proof (err_all_enumerable trace reason o E) as Hall.
  pose proof (own_property_all_enumerable _ Hall "then") as Hown.
  change (enumerable_value (obj_props o) "then")
    with (field (VObject o) "then") in Hown.
  rewrite <- E, field_err in Hown. cbn [String.eqb Ascii.eqb Bool.eqb] in Hown.
  rewrite E. destruct o as [c proto ps].
  cbn [obj_props obj_proto] in Hown, Hproto. subst proto.
  cbn [is_thenable get Object_prototype own_property].
  destruct (own_property "then" ps) as [p|];
    destruct (field_of reason "then") as [v|];
    cbn [option_map] in Hown; try discriminate Hown.
  - injection Hown as ->. reflexivity.
  - reflexivity.
Qed.

(** The record built from the default mapper's answer is none. *)
Lemma is_thenable_default_failure (trace : string) (m : value) :
  is_thenable (err trace (object_literal [("reason", m)])) = false.
Proof. rewrite is_thenable_err. reflexivity. Qed.

Lemma async_not_thenable (v : value) :
  is_thenable v = false -> async (Normal v) = Fulfilled v.
Proof. intros H. unfold async. rewrite H. reflexivity. Qed.

Lemma async_thenable (v : value) :
  is_thenable v = true -> async (Normal v) = Follows v.
Proof. intros H. unfold async. rewrite H. reflexivity. Qed.

Lemma default_mapError_message (e : value) :
  e <> VUndefined -> e <> VNull ->
  default_mapError e = Normal (object_literal [("reason", message_of e)]).
Proof.
  intros Hu Hn. destruct e; try reflexivity; contradiction.
Qed.

(** C5.  For every value, [null], arrays, primitives and plain objects
    included, [ok] returns its argument itself: nothing is wrapped around
    a success. *)
Theorem ok_returns_its_argument :
  forall v : value, ok v = v.
Proof.
  intros v. reflexivity.
Qed.

(** C3.  [isErr] returns [true] exactly on the non-null structured objects
    that contain the marker field [ok] set to [false], and [false] on every
    other value; [isOk] then returns [true].  Neither predicate throws.
    Here the classification in the words of the specification is
    [spec_is_failure]. *)
Theorem isErr_classifies_as_specified :
  forall v : value,
    isErr v = Normal (spec_is_failure v)
    /\ isOk v = Normal (negb (spec_is_failure v)).
Proof.
  intros v. split; [apply isErr_spec|apply isOk_spec].
Qed.

(** C8.  On every value [isOk] answers the negation of what [isErr]
    answers, so the two are never both true and never both false; on
    [err({reason: "r"})], whatever the trace, [isErr] is true and [isOk]
    false. *)
Theorem isOk_negates_isErr :
  (forall r : value,
      exists b : bool, isErr r = Normal b /\ isOk r = Normal (negb b))
  /\ (forall trace : string,
         isErr (err trace reason_r) = Normal true
         /\ isOk (err trace reason_r) = Normal false).
Proof.
  split.
  - intros r. exists (spec_is_failure r).
    split; [apply isErr_spec|apply isOk_spec].
  - intros trace. split; reflexivity.
Qed.

(** C10.  A value whose runtime type tag is not ["object"], a function for
    one, is a success for [isErr] and [isOk] whatever properties it
    carries, [ok: false] included: only values of runtime type object are
    classified as failures. *)
Theorem isErr_tests_the_type_tag_first :
  forall v : value,
    typeof v <> "object" ->
    isErr v = Normal false /\ isOk v = Normal true.
Proof.
  intros v Hty.
  assert (H : spec_is_failure v = false).
  { destruct (spec_is_failure v) eqn:E; [|reflexivity].
    apply typeof_failure in E. contradiction. }
  rewrite isErr_spec, isOk_spec, H. split; reflexivity.
Qed.

Lemma isErr_tests_the_type_tag_first_witness :
  typeof function_with_marker = "function"
  /\ field function_with_marker "ok" = Some (VBool false)
  /\ isErr function_with_marker = Normal false
  /\ isOk function_with_marker = Normal true.
Proof.
  split; [reflexivity|]. split; [reflexivity|].
  apply (isErr_tests_the_type_tag_first function_with_marker).
  simpl. discriminate.
Defined.

(** C9.  [err] keeps every field of [reason] other than [stack] with its
    value, and its [stack] is the trace captured by the call whatever
    [reason] supplies under that key, the fresh trace being written after
    the fields of [reason] are copied. *)
Theorem err_keeps_every_field_but_stack :
  forall (trace : string) (reason : object),
    (forall k v,
        k <> "stack" ->
        field_of reason k = Some v ->
        field (err trace reason) k = Some v)
    /\ field (err trace reason) "stack" = Some (VString trace).
Proof.
  intros trace reason. split.
  - intros k v Hk Hv. rewrite field_err, Hv.
    destruct (String.eqb k "stack") eqn:E; [|reflexivity].
    apply String.eqb_eq in E. contradiction.
  - rewrite field_err. reflexivity.
Qed.

Lemma err_keeps_every_field_but_stack_witness :
  field_of reason_with_stack "stack" = Some (VString "mine")
  /\ field (err sample_trace reason_with_stack) "detail" = Some (VNumber 7)
  /\ field (err sample_trace reason_with_stack) "reason" = Some (VString "X")
  /\ field (err sample_trace reason_with_stack) "stack"
     = Some (VString sample_trace).
Proof.
  destruct (err_keeps_every_field_but_stack sample_trace reason_with_stack)
    as [Hkeep Hstack].
  split; [reflexivity|]. split; [|split].
  - apply Hkeep; [discriminate|reflexivity].
  - apply Hkeep; [discriminate|reflexivity].
  - exact Hstack.
Defined.




(** C4.  When [fn()] returns [v], [safe(fn, mapError)] returns [ok(v)],
    which is [v]; when [fn()] throws [e], [safe(fn, mapError)] completes
    as [err(mapError(e))] does, so that, the mapper having returned [r],
    the result is [err(r)] and its fields other than the marker and
    [stack] are exactly those of [r]. *)
Theorem safe_returns_ok_or_err :
  forall (trace : string) (fn : unit -> completion value)
         (mapError : option (value -> completion object)),
    (forall v, fn tt = Normal v ->
               safe trace fn mapError = Normal (ok v) /\ ok v = v)
    /\ (forall e, fn tt = Throw e ->
                  safe trace fn mapError
                  = (r <- or_default mapError e ;; ret (err trace r)))
    /\ (forall e r,
           fn tt = Throw e ->
           or_default mapError e = Normal r ->
           safe trace fn mapError = Normal (err trace r)
           /\ forall k, k <> "ok" -> k <> "stack" ->
                        field (err trace r) k = field_of r k).
Proof.
  intros trace fn mapError. split; [|split].
  - intros v E. split; [apply safe_normal, E|reflexivity].
  - intros e E. apply safe_throw, E.
  - intros e r E Hr. split.
    + rewrite (safe_throw _ _ _ _ E), Hr. reflexivity.
    + intros k Hok Hstack. rewrite field_err.
      destruct (String.eqb k "stack") eqn:E1;
        [apply String.eqb_eq in E1; contradiction|].
      destruct (String.eqb k "ok") eqn:E2;
        [apply String.eqb_eq in E2; contradiction|].
      destruct (field_of r k); reflexivity.
Qed.

Lemma safe_returns_ok_or_err_witness :
  safe sample_trace returns_42 None = Normal (VNumber 42)
  /\ safe sample_trace throws_raw (Some reason_of_string)
     = Normal (err sample_trace (object_literal [("reason", VString "raw")]))
  /\ field (err sample_trace (object_literal [("reason", VString "raw")]))
           "reason" = Some (VString "raw").
Proof.
  destruct (safe_returns_ok_or_err sample_trace returns_42 None)
    as (Hreturn & _ & _).
  destruct (safe_returns_ok_or_err sample_trace throws_raw
              (Some reason_of_string)) as (_ & _ & Hthrow).
  destruct (Hthrow (VString "raw")
                   (object_literal [("reason", VString "raw")])
                   eq_refl eq_refl) as [Hresult Hfields].
  split; [|split].
  - apply (Hreturn (VNumber 42)). reflexivity.
  - exact Hresult.
  - rewrite Hfields; [reflexivity|discriminate|discriminate].
Defined.

(** C7, as the code has it.  The default mapper has no fallback to the
    string form of the exception.  What holds: with the mapper left out,
    [safe] and [safeAsync] map a caught value [e] other than [undefined]
    and [null] to [{ reason: e.message }], the value of its [message]
    property, [undefined] when it has none; so an [Error] created with a
    message gives that message as the reason, and a thrown string gives
    the reason [undefined]. *)
Theorem default_mapper_reads_message :
  (forall (trace : string) (e : value),
      e <> VUndefined ->
      e <> VNull ->
      let shape := object_literal [("reason", message_of e)] in
      default_mapError e = Normal shape
      /\ field (err trace shape) "reason" = Some (message_of e)
      /\ (forall fn, fn tt = Throw e ->
                     safe trace fn None = Normal (err trace shape))
      /\ (forall fn, fn tt = Throw e \/ fn tt = Normal (Rejected e) ->
                     safeAsync trace fn None = Fulfilled (err trace shape)))
  /\ (forall m t : string,
         message_of (VObject (new_Error (Some m) t)) = VString m)
  /\ (forall s : string, message_of (VString s) = VUndefined).
Proof.
  split; [|split; reflexivity].
  intros trace e Hu Hn shape.
  pose proof (default_mapError_message e Hu Hn) as Hd.
  split; [exact Hd|]. split; [|split].
  - rewrite field_err. reflexivity.
  - intros fn E. rewrite (safe_throw _ _ _ _ E).
    unfold or_default. rewrite Hd. reflexivity.
  - intros fn E. rewrite (safeAsync_caught _ _ _ _ E).
    unfold or_default. rewrite Hd.
    apply async_not_thenable, is_thenable_default_failure.
Qed.

Lemma default_mapper_reads_message_witness :
  (exists r, safe sample_trace throws_boom None = Normal r
             /\ field r "reason" = Some (VString "boom")
             /\ field r "stack" = Some (VString sample_trace))
  /\ (exists r, safeAsync sample_trace rejects_boom None = Fulfilled r
                /\ field r "reason" = Some (VString "boom")).
Proof.
  destruct default_mapper_reads_message as (H & _ & _).
  destruct (H sample_trace boom) as (_ & Hreason & Hsafe & Hasync);
    [discriminate|discriminate|].
  split.
  - eexists. split; [apply Hsafe; reflexivity|].
    split; [exact Hreason|reflexivity].
  - eexists. split; [apply Hasync; right; reflexivity|exact Hreason].
Defined.

(** C7, the claim as stated, at [safe(() => { throw "raw" })]: the reason
    of the failure is [undefined], not a string. *)
Lemma default_mapper_reason_not_string_counterexample :
  exists r m,
    safe sample_trace throws_raw None = Normal r
    /\ field r "reason" = Some m
    /\ m = VUndefined
    /\ typeof m <> "string".
Proof.
  eexists. exists VUndefined.
  split; [reflexivity|]. split; [reflexivity|]. split; [reflexivity|].
  simpl. discriminate.
Qed.

(** C1, as the code has it.  An exception raised by the mapper is raised
    inside the [catch] block and reaches the caller.  What holds: for
    every [fn] and every mapper, given or left out, [safe] returns a
    Result, [fn]'s value or the failure record built from the mapper's
    answer, and lets no exception through whenever the mapper in use
    returns normally on what [fn] throws; an exception the mapper raises
    is the one [safe] raises. *)
Theorem safe_returns_when_mapper_returns :
  forall (trace : string) (fn : unit -> completion value)
         (mapError : option (value -> completion object)),
    ((forall e, fn tt = Throw e ->
                exists r, or_default mapError e = Normal r) ->
     exists res,
       safe trace fn mapError = Normal res
       /\ ((exists v, fn tt = Normal v /\ res = v)
           \/ (exists e r, fn tt = Throw e
                           /\ or_default mapError e = Normal r
                           /\ res = err trace r)))
    /\ (forall e x,
           fn tt = Throw e ->
           or_default mapError e = Throw x ->
           safe trace fn mapError = Throw x).
Proof.
  intros trace fn mapError. split.
  - intros Hmap. destruct (fn tt) as [v|e] eqn:E.
    + exists v. split; [apply safe_normal, E|].
      left. exists v. split; reflexivity.
    + destruct (Hmap e eq_refl) as [r Hr].
      exists (err trace r). split.
      * rewrite (safe_throw _ _ _ _ E), Hr. reflexivity.
      * right. exists e, r. repeat split. exact Hr.
  - intros e x E Hx. rewrite (safe_throw _ _ _ _ E), Hx. reflexivity.
Qed.

Lemma safe_returns_when_mapper_returns_witness :
  (exists res, safe sample_trace throws_raw (Some reason_of_string)
               = Normal res)
  /\ (exists res, safe sample_trace throws_boom None = Normal res)
  /\ safe sample_trace throws_raw (Some rethrow) = Throw (VString "raw").
Proof.
  split; [|split].
  - destruct (safe_returns_when_mapper_returns
                sample_trace throws_raw (Some reason_of_string))
      as [H _].
    destruct H as (res & Hres & _).
    + intros e [= <-]. eexists. reflexivity.
    + exists res. exact Hres.
  - destruct (safe_returns_when_mapper_returns
                sample_trace throws_boom None) as [H _].
    destruct H as (res & Hres & _).
    + intros e [= <-]. eexists. reflexivity.
    + exists res. exact Hres.
  - destruct (safe_returns_when_mapper_returns
                sample_trace throws_raw (Some rethrow)) as [_ H].
    apply (H (VString "raw")); reflexivity.
Defined.

(** C1, the claim as stated, at
    [safe(() => { throw "raw" }, (e) => { throw e })]: the call throws
    ["raw"] instead of returning a Result. *)
Lemma safe_lets_mapper_exception_through_counterexample :
  safe sample_trace throws_raw (Some rethrow) = Throw (VString "raw")
  /\ forall res, safe sample_trace throws_raw (Some rethrow) <> Normal res.
Proof.
  split; [reflexivity|]. intros res. discriminate.
Qed.

(** C2, as the code has it.  An exception raised by the mapper rejects the
    promise, and a Result that is a thenable is followed instead of being
    delivered.  What holds: for every [fn] and every mapper, given or left
    out, whenever the mapper in use returns normally on what [fn] throws or
    its promise is rejected with, [safeAsync] resolves its promise with a
    Result, the fulfilment value of [fn]'s promise or the failure record
    built from the mapper's answer; the promise is then fulfilled with that
    Result, and not rejected, unless the Result has a callable [then], in
    which case the promise follows it and settles as its [then] decides.
    An exception the mapper raises is what the promise is rejected with. *)
Theorem safeAsync_fulfils_unless_thenable_or_mapper_throws :
  forall (trace : string) (fn : unit -> completion promise)
         (mapError : option (value -> completion object)),
    ((forall e, fn tt = Throw e \/ fn tt = Normal (Rejected e) ->
                exists r, or_default mapError e = Normal r) ->
     exists res,
       ((exists v, fn tt = Normal (Fulfilled v) /\ res = v)
        \/ (exists e r, (fn tt = Throw e \/ fn tt = Normal (Rejected e))
                        /\ or_default mapError e = Normal r
                        /\ res = err trace r))
       /\ (is_thenable res = false ->
           safeAsync trace fn mapError = Fulfilled res)
       /\ (is_thenable res = true ->
           safeAsync trace fn mapError = Follows res))
    /\ (forall e x,
           fn tt = Throw e \/ fn tt = Normal (Rejected e) ->
           or_default mapError e = Throw x ->
           safeAsync trace fn mapError = Rejected x).
Proof.
  intros trace fn mapError. split.
  - intros Hmap. destruct (fn tt) as [[v|e]|e] eqn:E.
    + exists v. split; [left; exists v; split; reflexivity|].
      rewrite (safeAsync_fulfilled _ _ _ v E).
      split; [apply async_not_thenable|apply async_thenable].
    + destruct (Hmap e (or_intror eq_refl)) as [r Hr].
      exists (err trace r). split.
      * right. exists e, r. split; [right; reflexivity|].
        split; [exact Hr|reflexivity].
      * rewrite (safeAsync_caught _ _ _ e (or_intror E)), Hr.
        split; [apply async_not_thenable|apply async_thenable].
    + destruct (Hmap e (or_introl eq_refl)) as [r Hr].
      exists (err trace r). split.
      * right. exists e, r. split; [left; reflexivity|].
        split; [exact Hr|reflexivity].
      * rewrite (safeAsync_caught _ _ _ e (or_introl E)), Hr.
        split; [apply async_not_thenable|apply async_thenable].
  - intros e x E Hx. rewrite (safeAsync_caught _ _ _ e E), Hx. reflexivity.
Qed.

Lemma safeAsync_fulfils_unless_thenable_or_mapper_throws_witness :
  safeAsync sample_trace resolves_7 None = Fulfilled (VNumber 7)
  /\ (exists res, safeAsync sample_trace rejects_boom None = Fulfilled res)
  /\ safeAsync sample_trace rejects_boom (Some answers_thenable)
     = Follows (err sample_trace thenable_reason)
  /\ safeAsync sample_trace rejects_boom (Some rethrow) = Rejected boom.
Proof.
  split; [|split; [|split]].
  - destruct (safeAsync_fulfils_unless_thenable_or_mapper_throws
                sample_trace resolves_7 None) as [H _].
    destruct H as (res & [(v & Hv & ->)|(e & r & [He|He] & _)] & Hful & _).
    + intros e [He|He]; discriminate He.
    + injection Hv as <-. apply Hful. reflexivity.
    + discriminate He.
    + discriminate He.
  - destruct (safeAsync_fulfils_unless_thenable_or_mapper_throws
                sample_trace rejects_boom None) as [H _].
    destruct H as (res & [(v & Hv & _)|(e & r & _ & Hr & ->)] & Hful & _).
    + intros e [He|He]; [discriminate He|].
      injection He as <-. eexists. reflexivity.
    + discriminate Hv.
    + exists (err sample_trace r). apply Hful.
      rewrite is_thenable_err.
      destruct e as [ | | b | n | z | s | d | o]; try discriminate Hr;
        injection Hr as <-; reflexivity.
  - destruct (safeAsync_fulfils_unless_thenable_or_mapper_throws
                sample_trace rejects_boom (Some answers_thenable)) as [H _].
    destruct H as (res & [(v & Hv & _)|(e & r & _ & Hr & ->)] & _ & Hfol).
    + intros e _. eexists. reflexivity.
    + discriminate Hv.
    + injection Hr as <-. apply Hfol. reflexivity.
  - destruct (safeAsync_fulfils_unless_thenable_or_mapper_throws
                sample_trace rejects_boom (Some rethrow)) as [_ H].
    apply (H boom); [right|]; reflexivity.
Defined.

(** C2, the claim as stated.  At
    [safeAsync(() => Promise.reject(new Error("boom")), (e) => { throw e })]
    the promise is rejected.  At the same [fn] with the mapper
    [(e) => ({ reason: "r", then: function () {} })] the promise is not
    fulfilled with the failure record: it follows the record, on whose
    [then] its outcome hangs. *)
Lemma safeAsync_not_always_fulfilled_counterexample :
  (safeAsync sample_trace rejects_boom (Some rethrow) = Rejected boom
   /\ forall res,
        safeAsync sample_trace rejects_boom (Some rethrow) <> Fulfilled res)
  /\ (safeAsync sample_trace rejects_boom (Some answers_thenable)
      = Follows (err sample_trace thenable_reason)
      /\ forall res,
           safeAsync sample_trace rejects_boom (Some answers_thenable)
           <> Fulfilled res).
Proof.
  split; (split; [reflexivity|intros res; discriminate]).
Qed.

(** *** Further properties *)

(** X1.  With the mapper left out, a caught [null] or [undefined] makes
    the default mapper's read of [message] raise a [TypeError] inside the
    [catch] block: that [TypeError] is what [safe] throws and what the
    promise of [safeAsync] is rejected with. *)
Theorem default_mapper_raises_on_null_and_undefined :
  forall (trace : string) (e : value),
    e = VNull \/ e = VUndefined ->
    exists message,
      default_mapError e = Throw (TypeError message)
      /\ get_member (TypeError message) "name" = Normal (VString "TypeError")
      /\ (forall fn, fn tt = Throw e ->
                     safe trace fn None = Throw (TypeError message))
      /\ (forall fn, fn tt = Throw e \/ fn tt = Normal (Rejected e) ->
                     safeAsync trace fn None = Rejected (TypeError message)).
Proof.
  intros trace e He.
  assert (Hd : exists message, default_mapError e = Throw (TypeError message)).
  { destruct He as [-> | ->]; eexists; reflexivity. }
  destruct Hd as [message Hx]. exists message.
  split; [exact Hx|]. split; [reflexivity|]. split.
  - intros fn E. rewrite (safe_throw _ _ _ _ E).
    unfold or_default. rewrite Hx. reflexivity.
  - intros fn E. rewrite (safeAsync_caught _ _ _ _ E).
    unfold or_default. rewrite Hx. reflexivity.
Qed.

Lemma default_mapper_raises_on_null_and_undefined_witness :
  (exists message,
      safe sample_trace throws_null None = Throw (TypeError message))
  /\ (exists message,
         safeAsync sample_trace rejects_undefined None
         = Rejected (TypeError message)).
Proof.
  split.
  - destruct (default_mapper_raises_on_null_and_undefined
                sample_trace VNull (or_introl eq_refl))
      as (message & _ & _ & H & _).
    exists message. apply H. reflexivity.
  - destruct (default_mapper_raises_on_null_and_undefined
                sample_trace VUndefined (or_intror eq_refl))
      as (message & _ & _ & _ & H).
    exists message. apply H. right. reflexivity.
Defined.

(** X2.  A field [ok] of [reason] other than [false] replaces the marker,
    the spread coming after it: the record [err] returns then carries that
    field and is a success for [isErr]. *)
Theorem err_marker_yields_to_reason :
  forall (trace : string) (reason : object) (v : value),
    field_of reason "ok" = Some v ->
    v <> VBool false ->
    field (err trace reason) "ok" = Some v
    /\ isErr (err trace reason) = Normal false
    /\ isOk (err trace reason) = Normal true.
Proof.
  intros trace reason v Hv Hne.
  assert (Hf : field (err trace reason) "ok" = Some v).
  { rewrite field_err, Hv. reflexivity. }
  assert (He : isErr (err trace reason) = Normal false).
  { rewrite isErr_err, Hf.
    destruct v as [ | | [|] | | | | | ]; try reflexivity.
    contradiction Hne. reflexivity. }
  split; [exact Hf|]. split; [exact He|].
  unfold isOk. rewrite He. reflexivity.
Qed.

Lemma err_marker_yields_to_reason_witness :
  field (err sample_trace reason_with_ok_and_stack) "ok" = Some (VBool true)
  /\ isErr (err sample_trace reason_with_ok_and_stack) = Normal false
  /\ isOk (err sample_trace reason_with_ok_and_stack) = Normal true.
Proof.
  apply (err_marker_yields_to_reason
           sample_trace reason_with_ok_and_stack (VBool true)).
  - reflexivity.
  - discriminate.
Defined.

(** *** The examples of the specification, evaluated *)

Example safe_returns_42 :
  safe sample_trace returns_42 None = Normal (VNumber 42).
Proof. reflexivity. Qed.

Example safe_boom :
  exists r, safe sample_trace throws_boom None = Normal r
            /\ field r "ok" = Some (VBool false)
            /\ field r "reason" = Some (VString "boom")
            /\ field r "stack" = Some (VString sample_trace)
            /\ isErr r = Normal true.
Proof. eexists. repeat split. Qed.

Example safeAsync_resolves_7 :
  safeAsync sample_trace resolves_7 None = Fulfilled (VNumber 7).
Proof. reflexivity. Qed.

Example safeAsync_boom :
  exists r, safeAsync sample_trace rejects_boom None = Fulfilled r
            /\ field r "reason" = Some (VString "boom")
            /\ isErr r = Normal true.
Proof. eexists. repeat split. Qed.

(** Successes: [null], a number, an array, a plain object without the
    marker.  Failures: any object that has the marker, own or inherited,
    built by [err] or not. *)
Example classification_samples :
  isErr VNull = Normal false
  /\ isErr (VNumber 42) = Normal false
  /\ isErr array_1_2 = Normal false
  /\ isErr (VObject reason_X) = Normal false
  /\ isErr bare_marker = Normal true
  /\ isErr inherited_marker = Normal true.
Proof. repeat split. Qed.

(* ===================================================================== *)
(** ** What the library does beyond its stated contract *)
(* ===================================================================== *)

(** The shape the default mapper builds has the one field [reason]. *)
Lemma field_of_default_shape (m : value) (k : string) :
  field_of (object_literal [("reason", m)]) k
  = if String.eqb k "reason" then Some m else None.
Proof.
  unfold field_of, object_literal. cbn [fold_left fst snd obj_props].
  rewrite enumerable_value_create. reflexivity.
Qed.

(** The fields of the failure built from it. *)
Lemma field_default_failure (trace : string) (m : value) (k : string) :
  field (err trace (object_literal [("reason", m)])) k
  = if String.eqb k "stack" then Some (VString trace)
    else if String.eqb k "reason" then Some m
    else if String.eqb k "ok" then Some (VBool false)
    else None.
Proof.
  rewrite field_err, field_of_default_shape.
  destruct (String.eqb k "stack"); [reflexivity|].
  destruct (String.eqb k "reason"); reflexivity.
Qed.

Lemma isErr_default_failure (trace : string) (m : value) :
  isErr (err trace (object_literal [("reason", m)])) = Normal true.
Proof. rewrite isErr_err, field_default_failure. reflexivity. Qed.

Lemma safe_default_throw (trace : string) fn (e : value) :
  fn tt = Throw e -> e <> VUndefined -> e <> VNull ->
  safe trace fn None
  = Normal (err trace (object_literal [("reason", message_of e)])).
Proof.
  intros E Hu Hn. rewrite (safe_throw _ _ _ _ E).
  unfold or_default. rewrite (default_mapError_message e Hu Hn). reflexivity.
Qed.

(** Own properties of a record built by [err] are its fields. *)
Lemma own_property_err (trace : string) (reason : object) (k : string) :
  forall o, err trace reason = VObject o ->
  option_map p_value (own_property k (obj_props o))
  = field (err trace reason) k.
Proof.
  intros o E. rewrite E. unfold field, field_of.
  apply own_property_all_enumerable, (err_all_enumerable trace reason o E).
Qed.

(** X3.  With the mapper left out and [fn] throwing neither [null] nor
    [undefined], [safe] returns, and [isErr] on its result is true exactly
    when [fn] threw or returned a value that itself has the shape of a
    failure: a throw is never taken for a success, and a returned value is
    taken for a failure only when it carries the marker. *)
Theorem safe_default_tells_throw_from_return :
  forall (trace : string) (fn : unit -> completion value),
    (forall e, fn tt = Throw e -> e <> VUndefined /\ e <> VNull) ->
    exists res,
      safe trace fn None = Normal res
      /\ isErr res = Normal match fn tt with
                            | Normal v => spec_is_failure v
                            | Throw _ => true
                            end
      /\ isOk res = Normal match fn tt with
                           | Normal v => negb (spec_is_failure v)
                           | Throw _ => false
                           end.
Proof.
  intros trace fn Hthrow. destruct (fn tt) as [v|e] eqn:E.
  - exists v. split; [apply safe_normal, E|].
    split; [apply isErr_spec|apply isOk_spec].
  - destruct (Hthrow e eq_refl) as [Hu Hn].
    eexists. split; [apply (safe_default_throw _ _ e E Hu Hn)|].
    unfold isOk. rewrite isErr_default_failure. split; reflexivity.
Qed.

Lemma safe_default_tells_throw_from_return_witness :
  (exists res, safe sample_trace throws_boom None = Normal res
               /\ isErr res = Normal true)
  /\ (exists res, safe sample_trace returns_42 None = Normal res
                  /\ isErr res = Normal false)
  /\ (exists res, safe sample_trace returns_bare_marker None = Normal res
                  /\ isErr res = Normal true).
Proof.
  split; [|split].
  - destruct (safe_default_tells_throw_from_return sample_trace throws_boom)
      as (res & Hres & Herr & _).
    + intros e [= <-]. split; discriminate.
    + exists res. split; [exact Hres|exact Herr].
  - destruct (safe_default_tells_throw_from_return sample_trace returns_42)
      as (res & Hres & Herr & _).
    + intros e He. discriminate He.
    + exists res. split; [exact Hres|exact Herr].
  - destruct (safe_default_tells_throw_from_return
                sample_trace returns_bare_marker)
      as (res & Hres & Herr & _).
    + intros e He. discriminate He.
    + exists res. split; [exact Hres|exact Herr].
Defined.

(** X4.  With the mapper left out, the failure [safe] returns for a caught
    [e] has three fields and no other own property: the marker, [reason]
    holding [e.message], and [stack] holding the trace captured in [err].
    Nothing else of [e] is kept: its name, its other properties and its own
    [stack], the trace of where it was thrown, are gone. *)
Theorem safe_default_failure_keeps_only_message :
  forall (trace : string) (fn : unit -> completion value) (e : value),
    fn tt = Throw e ->
    e <> VUndefined ->
    e <> VNull ->
    exists o,
      safe trace fn None = Normal (VObject o)
      /\ (forall k,
             option_map p_value (own_property k (obj_props o))
             = if String.eqb k "stack" then Some (VString trace)
               else if String.eqb k "reason" then Some (message_of e)
               else if String.eqb k "ok" then Some (VBool false)
               else None)
      /\ get_member (VObject o) "stack" = Normal (VString trace).
Proof.
  intros trace fn e E Hu Hn.
  set (shape := object_literal [("reason", message_of e)]).
  destruct (err_is_object trace shape) as (o & Ho & _).
  exists o. split; [|split].
  - rewrite <- Ho. apply (safe_default_throw _ _ e E Hu Hn).
  - intros k. rewrite (own_property_err trace shape k o Ho).
    apply field_default_failure.
  - pose proof (own_property_err trace shape "stack" o Ho) as H.
    unfold shape in H. rewrite field_default_failure in H. cbn [String.eqb Ascii.eqb Bool.eqb] in H.
    destruct o as [c proto ps]. cbn [obj_props] in H.
    cbn [get_member get ret Monad_completion].
    destruct (own_property "stack" ps) as [p|]; [|discriminate H].
    injection H as ->. reflexivity.
Qed.

Lemma safe_default_failure_keeps_only_message_witness :
  get_member boom "stack" = Normal (VString "Error: boom at <anonymous>")
  /\ get_member boom "name" = Normal (VString "Error")
  /\ exists o,
       safe sample_trace throws_boom None = Normal (VObject o)
       /\ own_property "name" (obj_props o) = None
       /\ option_map p_value (own_property "reason" (obj_props o))
          = Some (VString "boom")
       /\ get_member (VObject o) "stack" = Normal (VString sample_trace).
Proof.
  split; [reflexivity|]. split; [reflexivity|].
  destruct (safe_default_failure_keeps_only_message
              sample_trace throws_boom boom) as (o & Hres & Hown & Hstack).
  - reflexivity.
  - discriminate.
  - discriminate.
  - exists o. split; [exact Hres|]. split; [|split].
    + pose proof (Hown "name") as H. cbn [String.eqb Ascii.eqb Bool.eqb] in H.
      destruct (own_property "name" (obj_props o)); [discriminate H|reflexivity].
    + exact (Hown "reason").
    + exact Hstack.
Defined.

(** X5.  [err] copies the own enumerable properties of [reason] and
    nothing else: a property of [reason] that is inherited or not
    enumerable is no property of the record, so that a [reason] or a
    [message] held that way reads as [undefined] on the record. *)
Theorem err_copies_own_enumerable_only :
  forall (trace : string) (reason o : object),
    err trace reason = VObject o ->
    (forall k,
        k <> "ok" -> k <> "stack" ->
        field_of reason k = None ->
        own_property k (obj_props o) = None)
    /\ (field_of reason "reason" = None ->
        get_member (VObject o) "reason" = Normal VUndefined)
    /\ (field_of reason "message" = None ->
        get_member (VObject o) "message" = Normal VUndefined).
Proof.
  intros trace reason o E.
  assert (Hown : forall k,
             k <> "ok" -> k <> "stack" ->
             field_of reason k = None ->
             own_property k (obj_props o) = None).
  { intros k Hok Hstack Hnone.
    pose proof (own_property_err trace reason k o E) as H.
    rewrite field_err, Hnone in H.
    destruct (String.eqb k "stack") eqn:E1;
      [apply String.eqb_eq in E1; contradiction|].
    destruct (String.eqb k "ok") eqn:E2;
      [apply String.eqb_eq in E2; contradiction|].
    destruct (own_property k (obj_props o)); [discriminate H|reflexivity]. }
  split; [exact Hown|].
  destruct (err_is_object trace reason) as (o' & E' & _ & Hproto).
  rewrite E in E'. injection E' as <-.
  destruct o as [c proto ps]. cbn [obj_props obj_proto] in *. subst proto.
  split; intros Hnone; cbn [get_member get ret Monad_completion];
    rewrite Hown; try discriminate; try exact Hnone; reflexivity.
Qed.

Lemma err_copies_own_enumerable_only_witness :
  get_member (VObject custom_error) "message" = Normal (VString "boom")
  /\ get_member (err sample_trace custom_error) "message" = Normal VUndefined
  /\ get_member (err sample_trace custom_error) "reason"
     = Normal (VString "R")
  /\ get_member (VObject inherited_reason) "reason" = Normal (VString "X")
  /\ get_member (err sample_trace inherited_reason) "reason"
     = Normal VUndefined.
Proof.
  split; [reflexivity|]. split; [|split; [reflexivity|split; [reflexivity|]]].
  - destruct (err_is_object sample_trace custom_error) as (o & E & _).
    rewrite E.
    apply (err_copies_own_enumerable_only sample_trace custom_error o E).
    reflexivity.
  - destruct (err_is_object sample_trace inherited_reason) as (o & E & _).
    rewrite E.
    apply (err_copies_own_enumerable_only sample_trace inherited_reason o E).
    reflexivity.
Defined.

(** X6.  Passing a record built by [err] to [err] again changes nothing
    but the trace: the second record has the fields [err] would have given
    the original [reason] at the second call, its [stack] is the second
    trace, the first being lost, and [isErr] answers on it as on the
    first. *)
Theorem err_of_err_renews_the_stack :
  forall (first second : string) (reason o : object),
    err first reason = VObject o ->
    (forall k, field (err second o) k = field (err second reason) k)
    /\ field (err second o) "stack" = Some (VString second)
    /\ isErr (err second o) = isErr (err first reason).
Proof.
  intros first second reason o E.
  assert (Ho : forall k, field_of o k = field (err first reason) k).
  { intros k. rewrite E. reflexivity. }
  assert (Hk : forall k, k <> "stack" ->
                         field (err second o) k = field (err first reason) k).
  { intros k Hstack. rewrite field_err, Ho, (field_err first).
    destruct (String.eqb k "stack") eqn:E1;
      [apply String.eqb_eq in E1; contradiction|].
    destruct (field_of reason k); [reflexivity|].
    destruct (String.eqb k "ok"); reflexivity. }
  split; [|split].
  - intros k. destruct (String.eqb k "stack") eqn:E1.
    + rewrite !field_err, E1. reflexivity.
    + rewrite Hk by (intros ->; discriminate E1).
      rewrite !field_err, E1. reflexivity.
  - rewrite field_err. reflexivity.
  - rewrite !isErr_err, Hk by discriminate. reflexivity.
Qed.

Lemma err_of_err_renews_the_stack_witness :
  exists o,
    err sample_trace reason_X = VObject o
    /\ field (err other_trace o) "reason" = Some (VString "X")
    /\ field (err other_trace o) "stack" = Some (VString other_trace)
    /\ isErr (err other_trace o) = Normal true.
Proof.
  destruct (err_is_object sample_trace reason_X) as (o & E & _).
  exists o.
  destruct (err_of_err_renews_the_stack sample_trace other_trace reason_X o E)
    as (Hfields & Hstack & Hfail).
  split; [exact E|]. split; [|split].
  - rewrite Hfields. reflexivity.
  - exact Hstack.
  - rewrite Hfail. reflexivity.
Defined.

(** X7.  When [fn] throws, or its promise is rejected, and the mapper in
    use answers [r]: if [r] has a field [then] holding a function, the
    record [err] builds from it is a thenable, and the promise of
    [safeAsync] is not fulfilled with the record but follows it; if [r] has
    no such field, the promise is fulfilled with the record. *)
Theorem safeAsync_follows_a_failure_with_then :
  forall (trace : string) (fn : unit -> completion promise)
         (mapError : option (value -> completion object))
         (e : value) (r : object),
    fn tt = Throw e \/ fn tt = Normal (Rejected e) ->
    or_default mapError e = Normal r ->
    (forall f,
        field_of r "then" = Some (VObject f) ->
        obj_callable f = true ->
        safeAsync trace fn mapError = Follows (err trace r))
    /\ ((forall f, field_of r "then" = Some (VObject f) ->
                   obj_callable f = false) ->
        safeAsync trace fn mapError = Fulfilled (err trace r)).
Proof.
  intros trace fn mapError e r E Hr.
  rewrite (safeAsync_caught _ _ _ e E), Hr.
  cbn [bind ret Monad_completion]. split.
  - intros f Hf Hc. apply async_thenable.
    rewrite is_thenable_err, Hf. exact Hc.
  - intros Hnone. apply async_not_thenable. rewrite is_thenable_err.
    destruct (field_of r "then") as [[ | | b | n | z | s | d | f]|];
      try reflexivity.
    apply (Hnone f eq_refl).
Qed.

Lemma safeAsync_follows_a_failure_with_then_witness :
  safeAsync sample_trace rejects_boom (Some answers_thenable)
  = Follows (err sample_trace thenable_reason)
  /\ safeAsync sample_trace rejects_boom (Some reason_of_string)
     = Fulfilled (err sample_trace
                      (object_literal [("reason", VString "not a string")])).
Proof.
  split.
  - destruct (safeAsync_follows_a_failure_with_then
                sample_trace rejects_boom (Some answers_thenable)
                boom thenable_reason (or_intror eq_refl) eq_refl)
      as [H _].
    apply (H (Obj true (Some (Obj true (Some Object_prototype) [])) []));
      reflexivity.
  - destruct (safeAsync_follows_a_failure_with_then
                sample_trace rejects_boom (Some reason_of_string)
                boom (object_literal [("reason", VString "not a string")])
                (or_intror eq_refl) eq_refl)
      as [_ H].
    apply H. intros f Hf. discriminate Hf.
Defined.

(** X10.  When [fn] throws and the mapper in use answers [r], [isErr]
    sees the failure [safe] returns exactly when [r] has no field [ok], or
    has it set to [false]; with any other [ok] in [r] the result of [safe]
    passes for a success. *)
Theorem safe_failure_seen_unless_mapper_sets_ok :
  forall (trace : string) (fn : unit -> completion value)
         (mapError : option (value -> completion object))
         (e : value) (r : object),
    fn tt = Throw e ->
    or_default mapError e = Normal r ->
    exists res,
      safe trace fn mapError = Normal res
      /\ isErr res = Normal match field_of r "ok" with
                            | None => true
                            | Some (VBool false) => true
                            | Some _ => false
                            end.
Proof.
  intros trace fn mapError e r E Hr. exists (err trace r). split.
  - rewrite (safe_throw _ _ _ _ E), Hr. reflexivity.
  - rewrite isErr_err, field_err. cbn [String.eqb Ascii.eqb Bool.eqb].
    destruct (field_of r "ok") as [[ | | [|] | | | | | ]|]; reflexivity.
Qed.

Lemma safe_failure_seen_unless_mapper_sets_ok_witness :
  (exists res,
      safe sample_trace throws_raw (Some reason_of_string) = Normal res
      /\ isErr res = Normal true)
  /\ (exists res,
         safe sample_trace throws_raw
              (Some (fun _ => ret reason_with_ok_and_stack)) = Normal res
         /\ isErr res = Normal false).
Proof.
  split.
  - apply (safe_failure_seen_unless_mapper_sets_ok
             sample_trace throws_raw (Some reason_of_string)
             (VString "raw") (object_literal [("reason", VString "raw")]));
      reflexivity.
  - apply (safe_failure_seen_unless_mapper_sets_ok
             sample_trace throws_raw
             (Some (fun _ => ret reason_with_ok_and_stack))
             (VString "raw") reason_with_ok_and_stack);
      reflexivity.
Defined.

(** X11.  With the mapper left out, a thrown primitive other than [null]
    and [undefined] leaves no mark of its own: whatever primitives two
    functions throw, a string, a number, a boolean, [safe] returns the same
    record for both, with [reason] undefined. *)
Theorem safe_default_forgets_thrown_primitives :
  forall (trace : string) (fn fn' : unit -> completion value)
         (e e' : value),
    fn tt = Throw e ->
    fn' tt = Throw e' ->
    e <> VUndefined -> e <> VNull ->
    e' <> VUndefined -> e' <> VNull ->
    (forall o, e <> VObject o) ->
    (forall o, e' <> VObject o) ->
    safe trace fn None = safe trace fn' None
    /\ exists res, safe trace fn None = Normal res
                   /\ field res "reason" = Some VUndefined.
Proof.
  intros trace fn fn' e e' E E' Hu Hn Hu' Hn' Hprim Hprim'.
  assert (Hm : forall x, (forall o, x <> VObject o) -> message_of x = VUndefined).
  { intros x Hx. destruct x; try reflexivity. contradiction (Hx o eq_refl). }
  rewrite (safe_default_throw _ _ e E Hu Hn).
  rewrite (safe_default_throw _ _ e' E' Hu' Hn').
  rewrite (Hm e Hprim), (Hm e' Hprim'). split; [reflexivity|].
  eexists. split; [reflexivity|]. rewrite field_default_failure. reflexivity.
Qed.

Lemma safe_default_forgets_thrown_primitives_witness :
  safe sample_trace throws_raw None
  = safe sample_trace (fun _ => raise (VNumber 404)) None.
Proof.
  apply (safe_default_forgets_thrown_primitives
           sample_trace throws_raw (fun _ => raise (VNumber 404))
           (VString "raw") (VNumber 404));
    try reflexivity; try discriminate; intros o; discriminate.
Defined.

(* ===================================================================== *)
(** ** Properties of the caller *)
(* ===================================================================== *)

(** [safe] with the mapper left out, on a function that throws objects
    only. *)
Lemma safe_default_on_error_objects (trace : string)
      (fn : unit -> completion value) :
  (forall e, fn tt = Throw e -> exists o, e = VObject o) ->
  exists res,
    safe trace fn None = Normal res
    /\ (forall v, fn tt = Normal v ->
                  res = v /\ isErr res = Normal (spec_is_failure v))
    /\ (forall e, fn tt = Throw e ->
                  isErr res = Normal true
                  /\ field res "reason" = Some (message_of e)
                  /\ field res "stack" = Some (VString trace)).
Proof.
  intros Hthrow. destruct (fn tt) as [v|e] eqn:E.
  - exists v. split; [apply safe_normal, E|]. split.
    + intros v' [= <-]. split; [reflexivity|apply isErr_spec].
    + intros e He. discriminate He.
  - destruct (Hthrow e eq_refl) as [o ->].
    eexists. split.
    + apply (safe_default_throw trace fn (VObject o) E); discriminate.
    + split.
      * intros v Hv. discriminate Hv.
      * intros e [= <-]. split; [apply isErr_default_failure|].
        rewrite !field_default_failure. split; reflexivity.
Qed.

(** X8.  On a host whose [JSON.parse] throws error objects only,
    [safeJsonParse] never throws.  When the text parses, the parsed value
    comes back itself, and [isErr] takes it for a failure exactly when it
    carries the marker, as the parse of [{"ok":false}] does; when the
    text does not parse, the result is a failure whose [reason] is the
    message of the error and whose [stack] is the trace captured in
    [err]. *)
Theorem safeJsonParse_returns_value_or_failure :
  forall (JSON_parse : string -> completion value) (trace d : string),
    (forall e, JSON_parse d = Throw e -> exists o, e = VObject o) ->
    exists res,
      safeJsonParse JSON_parse trace d = Normal res
      /\ (forall v, JSON_parse d = Normal v ->
                    res = v /\ isErr res = Normal (spec_is_failure v))
      /\ (forall e, JSON_parse d = Throw e ->
                    isErr res = Normal true
                    /\ field res "reason" = Some (message_of e)
                    /\ field res "stack" = Some (VString trace)).
Proof.
  intros JSON_parse trace d Hthrow.
  exact (safe_default_on_error_objects trace (fun _ => JSON_parse d) Hthrow).
Qed.

Lemma safeJsonParse_returns_value_or_failure_witness :
  (exists res,
      safeJsonParse sample_JSON_parse sample_trace EmptyString = Normal res
      /\ isErr res = Normal true
      /\ field res "reason"
         = Some (VString "Unexpected end of JSON input"))
  /\ (exists res,
         safeJsonParse sample_JSON_parse sample_trace text_marker
         = Normal res
         /\ res = bare_marker
         /\ isErr res = Normal true
         /\ get_member res "reason" = Normal VUndefined).
Proof.
  split.
  - destruct (safeJsonParse_returns_value_or_failure
                sample_JSON_parse sample_trace EmptyString)
      as (res & Hres & _ & Hthrow).
    + intros e [= <-]. eexists. reflexivity.
    + exists res. split; [exact Hres|].
      destruct (Hthrow (SyntaxError "Unexpected end of JSON input") eq_refl)
        as (Hfail & Hreason & _).
      split; [exact Hfail|exact Hreason].
  - destruct (safeJsonParse_returns_value_or_failure
                sample_JSON_parse sample_trace text_marker)
      as (res & Hres & Hvalue & _).
    + intros e He. discriminate He.
    + exists res. split; [exact Hres|].
      destruct (Hvalue bare_marker eq_refl) as [-> Hfail].
      split; [reflexivity|]. split; [exact Hfail|reflexivity].
Defined.

(** X9.  When [JSON.parse] throws an error object on the empty text, as
    hosts do, [init] ends normally having made one console call and no
    other: [console.error] with the label, the message of the error as
    the reason, and the trace captured in [err] as the stack.
    [console.log] is not called. *)
Theorem init_reports_the_parse_error :
  forall (JSON_parse : string -> completion value) (trace : string)
         (console : list console_call) (o : object),
    JSON_parse EmptyString = Throw (VObject o) ->
    init JSON_parse trace console
    = ((console
          ++ [ConsoleError [VString "失败:"; get o "message"; VString trace]])
         %list,
       Normal tt).
Proof.
  intros JSON_parse trace console o E.
  set (shape := object_literal [("reason", get o "message")]).
  assert (Hres : safeJsonParse JSON_parse trace EmptyString
                 = Normal (err trace shape)).
  { unfold safeJsonParse.
    apply (safe_default_throw trace (fun _ => JSON_parse EmptyString)
             (VObject o) E); discriminate. }
  unfold init, init_call. rewrite Hres.
  cbn [bind ret Monad_completion].
  unfold shape. rewrite isErr_default_failure. reflexivity.
Qed.

Lemma init_reports_the_parse_error_witness :
  init sample_JSON_parse sample_trace []
  = ([ConsoleError [VString "失败:";
                    VString "Unexpected end of JSON input";
                    VString sample_trace]],
     Normal tt).
Proof.
  exact (init_reports_the_parse_error
           sample_JSON_parse sample_trace []
           (Obj false (Some SyntaxError_prototype)
                [("message",
                  mkProp (VString "Unexpected end of JSON input") false)])
           eq_refl).
Defined.
